(** * CloudWatch metric helpers of awsx: SQS and Cognito catalogs

    A shallow embedding of [sqs/metrics.ts] and of the Cognito catalog that
    follows it, together with the properties of the metric descriptors they
    build.  JavaScript objects are finite maps from property names to
    values; object spread is a right-biased union of such maps. *)

From Stdlib Require Import ZArith.
From stdpp Require Import gmap strings fin_maps.

Set Warnings "-register-all".

(** ** JavaScript values and objects *)

(** Own enumerable properties only: no prototype chain is modelled.  A
    property that is present with the value [VUndefined] is distinct from a
    property that is absent, as it is for object spread. *)
Inductive value : Type :=
| VUndefined
| VNull
| VBoolean (b : bool)
| VNumber (n : Z)
| VString (s : string)
| VObject (fields : gmap string value).

Abbreviation obj := (gmap string value).

(** [o.k] on an object that is known to be one. *)
Definition prop (o : obj) (k : string) : value := default VUndefined (o !! k).

(** A thrown [TypeError] is the only failure the helpers can meet. *)
Inductive result (A : Type) : Type :=
| Ok (a : A)
| TypeError.
Arguments Ok {A} a.
Arguments TypeError {A}.

#[global] Instance result_ret : MRet result := λ A a, Ok a.
#[global] Instance result_bind : MBind result := λ A B f r,
  match r with
  | Ok a => f a
  | TypeError => TypeError
  end.

(** [v.k] on an arbitrary value: reading a property of [undefined] or [null]
    throws; a primitive has no own property (the helpers only read [name]
    and [id], which no primitive wrapper defines). *)
Definition get_prop (v : value) (k : string) : result value :=
  match v with
  | VUndefined | VNull => TypeError
  | VObject o => Ok (prop o k)
  | VBoolean _ | VNumber _ | VString _ => Ok VUndefined
  end.

(** [{ ...target, ...source }]: the properties of [source] win. *)
Definition spread (target source : obj) : obj := source ∪ target.

(** [{ ...target, ...source }] where [source] may be [undefined], which
    spreads to nothing. *)
Definition spread_opt (target : obj) (source : option obj) : obj :=
  match source with
  | Some o => spread target o
  | None => target
  end.

(** ** The generic descriptor, [cloudwatch.Metric] *)

Module cloudwatch.

(** Modelled from the spec: the class [cloudwatch.Metric] lives in
    [../cloudwatch], outside this catalog.  A descriptor carries the
    union of the fields of the argument object it is constructed from. *)
Abbreviation Metric := (gmap string value).

(** Modelled from the spec: the constructor of [cloudwatch.Metric]; it has
    no validation step and keeps the fields of its argument. *)
Definition new_Metric (args : obj) : Metric := args.

(** Modelled from the spec: the fields of a descriptor, read from the
    properties of the same names. *)
Definition namespace (m : Metric) : value := prop m "namespace".
Definition name (m : Metric) : value := prop m "name".
Definition unit (m : Metric) : value := prop m "unit".
Definition statistic (m : Metric) : value := prop m "statistic".
Definition period (m : Metric) : value := prop m "period".

(** Modelled from the spec: the dimension map of a descriptor; a descriptor
    without one has no dimension. *)
Definition dimensions (m : Metric) : gmap string value :=
  match m !! "dimensions" with
  | Some (VObject d) => d
  | _ => ∅
  end.

(** Modelled from the spec: [Metric.withDimensions] of [../cloudwatch].
    Dimension maps are merged, the dimensions passed in taking precedence
    over those the descriptor already has; the result is a new
    descriptor. *)
Definition withDimensions (m : Metric) (dims : gmap string value) : Metric :=
  <["dimensions" := VObject (dims ∪ dimensions m)]> m.

End cloudwatch.

(** ** [sqs/metrics.ts] *)

Module sqs.

Inductive SqsMetricName : Type :=
| ApproximateAgeOfOldestMessage
| ApproximateNumberOfMessagesDelayed
| ApproximateNumberOfMessagesNotVisible
| ApproximateNumberOfMessagesVisible
| NumberOfEmptyReceives
| NumberOfMessagesDeleted
| NumberOfMessagesReceived
| NumberOfMessagesSent
| SentMessageSize.

(** The string literal each member of the union type stands for. *)
Definition literal (n : SqsMetricName) : string :=
  match n with
  | ApproximateAgeOfOldestMessage => "ApproximateAgeOfOldestMessage"
  | ApproximateNumberOfMessagesDelayed => "ApproximateNumberOfMessagesDelayed"
  | ApproximateNumberOfMessagesNotVisible => "ApproximateNumberOfMessagesNotVisible"
  | ApproximateNumberOfMessagesVisible => "ApproximateNumberOfMessagesVisible"
  | NumberOfEmptyReceives => "NumberOfEmptyReceives"
  | NumberOfMessagesDeleted => "NumberOfMessagesDeleted"
  | NumberOfMessagesReceived => "NumberOfMessagesReceived"
  | NumberOfMessagesSent => "NumberOfMessagesSent"
  | SentMessageSize => "SentMessageSize"
  end.

(** [interface SqsMetricChange]: the declared field [queue?: aws.sqs.Queue]
    is absent, [undefined] or an object. *)
Definition SqsMetricChange (change : obj) : bool :=
  match change !! "queue" with
  | None | Some VUndefined | Some (VObject _) => true
  | Some _ => false
  end.

(** The local [dimensions] record of [metric], after the conditional
    assignment of [QueueName]. *)
Definition metric_dimensions (change : obj) : result (gmap string value) :=
  let dimensions : gmap string value := ∅ in
  match prop change "queue" with
  | VUndefined => Ok dimensions
  | queue =>
      queue_name ← get_prop queue "name";
      Ok (<["QueueName" := queue_name]> dimensions)
  end.

(** The object literal handed to [new cloudwatch.Metric]. *)
Definition metric_args (metricName : SqsMetricName) (change : obj) : obj :=
  spread {[ "namespace" := VString "AWS/SQS";
            "name" := VString (literal metricName) ]} change.

Definition metric (metricName : SqsMetricName) (change : option obj)
  : result cloudwatch.Metric :=
  let change := default ∅ change in
  dimensions ← metric_dimensions change;
  Ok (cloudwatch.withDimensions
        (cloudwatch.new_Metric (metric_args metricName change)) dimensions).

Definition approximateAgeOfOldestMessage (change : option obj) :=
  metric ApproximateAgeOfOldestMessage
    (Some (spread_opt {[ "unit" := VString "Seconds" ]} change)).

Definition approximateNumberOfMessagesDelayed (change : option obj) :=
  metric ApproximateNumberOfMessagesDelayed
    (Some (spread_opt {[ "unit" := VString "Count" ]} change)).

Definition approximateNumberOfMessagesNotVisible (change : option obj) :=
  metric ApproximateNumberOfMessagesNotVisible
    (Some (spread_opt {[ "unit" := VString "Count" ]} change)).

Definition approximateNumberOfMessagesVisible (change : option obj) :=
  metric ApproximateNumberOfMessagesVisible
    (Some (spread_opt {[ "unit" := VString "Count" ]} change)).

Definition numberOfEmptyReceives (change : option obj) :=
  metric NumberOfEmptyReceives
    (Some (spread_opt {[ "unit" := VString "Count" ]} change)).

Definition numberOfMessagesDeleted (change : option obj) :=
  metric NumberOfMessagesDeleted
    (Some (spread_opt {[ "unit" := VString "Count" ]} change)).

Definition numberOfMessagesReceived (change : option obj) :=
  metric NumberOfMessagesReceived
    (Some (spread_opt {[ "unit" := VString "Count" ]} change)).

Definition numberOfMessagesSent (change : option obj) :=
  metric NumberOfMessagesSent
    (Some (spread_opt {[ "unit" := VString "Count" ]} change)).

Definition sentMessageSize (change : option obj) :=
  metric SentMessageSize
    (Some (spread_opt {[ "unit" := VString "Bytes" ]} change)).

End sqs.

(** ** The Cognito catalog *)

Module cognito.

Inductive CognitoMetricName : Type :=
| CompromisedCredentialsRisk
| AccountTakeOverRisk
| OverrideBlock
| Risk
| NoRisk.

Definition literal (n : CognitoMetricName) : string :=
  match n with
  | CompromisedCredentialsRisk => "CompromisedCredentialsRisk"
  | AccountTakeOverRisk => "AccountTakeOverRisk"
  | OverrideBlock => "OverrideBlock"
  | Risk => "Risk"
  | NoRisk => "NoRisk"
  end.

(** [interface CognitoMetricChange]: the declared field
    [userPool?: aws.cognito.UserPool] is absent, [undefined] or an
    object. *)
Definition CognitoMetricChange (change : obj) : bool :=
  match change !! "userPool" with
  | None | Some VUndefined | Some (VObject _) => true
  | Some _ => false
  end.

Definition metric_dimensions (change : obj) : result (gmap string value) :=
  let dimensions : gmap string value := ∅ in
  match prop change "userPool" with
  | VUndefined => Ok dimensions
  | userPool =>
      userPool_id ← get_prop userPool "id";
      Ok (<["UserPoolId" := userPool_id]> dimensions)
  end.

Definition metric_args (metricName : CognitoMetricName) (change : obj) : obj :=
  spread {[ "namespace" := VString "AWS/Cognito";
            "name" := VString (literal metricName) ]} change.

Definition metric (metricName : CognitoMetricName) (change : option obj)
  : result cloudwatch.Metric :=
  let change := default ∅ change in
  dimensions ← metric_dimensions change;
  Ok (cloudwatch.withDimensions
        (cloudwatch.new_Metric (metric_args metricName change)) dimensions).

Definition compromisedCredentialsRisk (change : option obj) :=
  metric CompromisedCredentialsRisk change.

Definition accountTakeOverRisk (change : option obj) :=
  metric AccountTakeOverRisk change.

Definition overrideBlock (change : option obj) :=
  metric OverrideBlock change.

Definition risk (change : option obj) :=
  metric Risk change.

Definition noRisk (change : option obj) :=
  metric NoRisk change.

End cognito.

(** ** The helpers over an explicit store of objects *)

(** The helpers once more, this time with every object they touch held in a
    store: the change object of the caller, the object literals, the local
    [dimensions] record, which [metric] assigns to, and the descriptors.
    A resource held in a property is kept by value: the helpers never
    assign through a property path. *)
Module store.

Abbreviation loc := positive.
Abbreviation heap := (gmap positive (gmap string value)).

Definition M (A : Type) : Type := heap → result (A * heap).

Definition ret {A : Type} (a : A) : M A := λ h, Ok (a, h).

Definition bind {A B : Type} (m : M A) (f : A → M B) : M B := λ h,
  match m h with
  | Ok (a, h') => f a h'
  | TypeError => TypeError
  end.

#[global] Instance M_ret : MRet M := @ret.
#[global] Instance M_bind : MBind M := λ A B f m, bind m f.

(** An object literal or [new]: a location the store does not hold yet. *)
Definition alloc (o : obj) : M loc := λ h,
  let l := fresh (dom h) in Ok (l, <[l := o]> h).

Definition load (l : loc) : M obj := λ h,
  match h !! l with
  | Some o => Ok (o, h)
  | None => TypeError
  end.

(** [l.k = v] *)
Definition assign (l : loc) (k : string) (v : value) : M () := λ h,
  match h !! l with
  | Some o => Ok ((), <[l := <[k := v]> o]> h)
  | None => TypeError
  end.

Definition lift {A : Type} (r : result A) : M A := λ h,
  match r with
  | Ok a => Ok (a, h)
  | TypeError => TypeError
  end.

(** The object an optional argument refers to. *)
Definition load_opt (l : option loc) : M (option obj) :=
  match l with
  | Some l => o ← load l; mret (Some o)
  | None => mret None
  end.

(** Modelled from the spec: the constructor of [cloudwatch.Metric], a new
    object with the fields of its argument. *)
Definition new_Metric (args : loc) : M loc :=
  a ← load args;
  alloc (cloudwatch.new_Metric a).

(** Modelled from the spec: [Metric.withDimensions], a new descriptor; the
    receiver and the dimension record are only read. *)
Definition withDimensions (m : loc) (dims : loc) : M loc :=
  o ← load m;
  d ← load dims;
  alloc (cloudwatch.withDimensions o d).

End store.

Module sqs_store.
Import store.

Definition metric (metricName : sqs.SqsMetricName) (change : option loc) : M loc :=
  change ← match change with
           | Some l => mret l
           | None => alloc ∅
           end;
  dimensions ← alloc ∅;
  c ← load change;
  _ ← match prop c "queue" with
      | VUndefined => mret ()
      | queue =>
          queue_name ← lift (get_prop queue "name");
          assign dimensions "QueueName" queue_name
      end;
  c ← load change;
  args ← alloc (spread {[ "namespace" := VString "AWS/SQS";
                          "name" := VString (sqs.literal metricName) ]} c);
  m ← new_Metric args;
  withDimensions m dimensions.

(** [metric(name, { unit: u, ...change })] *)
Definition with_unit (metricName : sqs.SqsMetricName) (u : string)
    (change : option loc) : M loc :=
  c ← load_opt change;
  literal ← alloc (spread_opt {[ "unit" := VString u ]} c);
  metric metricName (Some literal).

Definition approximateAgeOfOldestMessage :=
  with_unit sqs.ApproximateAgeOfOldestMessage "Seconds".
Definition approximateNumberOfMessagesDelayed :=
  with_unit sqs.ApproximateNumberOfMessagesDelayed "Count".
Definition approximateNumberOfMessagesNotVisible :=
  with_unit sqs.ApproximateNumberOfMessagesNotVisible "Count".
Definition approximateNumberOfMessagesVisible :=
  with_unit sqs.ApproximateNumberOfMessagesVisible "Count".
Definition numberOfEmptyReceives :=
  with_unit sqs.NumberOfEmptyReceives "Count".
Definition numberOfMessagesDeleted :=
  with_unit sqs.NumberOfMessagesDeleted "Count".
Definition numberOfMessagesReceived :=
  with_unit sqs.NumberOfMessagesReceived "Count".
Definition numberOfMessagesSent :=
  with_unit sqs.NumberOfMessagesSent "Count".
Definition sentMessageSize :=
  with_unit sqs.SentMessageSize "Bytes".

End sqs_store.

Module cognito_store.
Import store.

Definition metric (metricName : cognito.CognitoMetricName) (change : option loc)
  : M loc :=
  change ← match change with
           | Some l => mret l
           | None => alloc ∅
           end;
  dimensions ← alloc ∅;
  c ← load change;
  _ ← match prop c "userPool" with
      | VUndefined => mret ()
      | userPool =>
          userPool_id ← lift (get_prop userPool "id");
          assign dimensions "UserPoolId" userPool_id
      end;
  c ← load change;
  args ← alloc (spread {[ "namespace" := VString "AWS/Cognito";
                          "name" := VString (cognito.literal metricName) ]} c);
  m ← new_Metric args;
  withDimensions m dimensions.

Definition compromisedCredentialsRisk := metric cognito.CompromisedCredentialsRisk.
Definition accountTakeOverRisk := metric cognito.AccountTakeOverRisk.
Definition overrideBlock := metric cognito.OverrideBlock.
Definition risk := metric cognito.Risk.
Definition noRisk := metric cognito.NoRisk.

End cognito_store.

(** ** The two catalogs *)

(** What is fixed per service: the namespace, the property of the change
    object that holds the resource reference, the dimension key derived from
    it, the attribute of the resource the dimension is read from, and the
    declared type of the change object. *)
Record Service : Type := {
  svc_namespace : string;
  svc_resource : string;
  svc_dimension : string;
  svc_attribute : string;
  svc_change : obj → bool
}.

Definition SQS : Service := {|
  svc_namespace := "AWS/SQS";
  svc_resource := "queue";
  svc_dimension := "QueueName";
  svc_attribute := "name";
  svc_change := sqs.SqsMetricChange
|}.

Definition Cognito : Service := {|
  svc_namespace := "AWS/Cognito";
  svc_resource := "userPool";
  svc_dimension := "UserPoolId";
  svc_attribute := "id";
  svc_change := cognito.CognitoMetricChange
|}.

(** An exported helper, as a function of values and as a computation over
    the store, with its documented constants: the metric name it stands for
    and the unit its documentation gives, if any. *)
Record Helper : Type := {
  service : Service;
  call : option obj → result cloudwatch.Metric;
  call_store : option store.loc → store.M store.loc;
  doc_name : string;
  doc_unit : option string
}.

Module doc.

Definition approximateAgeOfOldestMessage : Helper := {|
  service := SQS;
  call := sqs.approximateAgeOfOldestMessage;
  call_store := sqs_store.approximateAgeOfOldestMessage;
  doc_name := "ApproximateAgeOfOldestMessage";
  doc_unit := Some "Seconds"
|}.

Definition approximateNumberOfMessagesDelayed : Helper := {|
  service := SQS;
  call := sqs.approximateNumberOfMessagesDelayed;
  call_store := sqs_store.approximateNumberOfMessagesDelayed;
  doc_name := "ApproximateNumberOfMessagesDelayed";
  doc_unit := Some "Count"
|}.

Definition approximateNumberOfMessagesNotVisible : Helper := {|
  service := SQS;
  call := sqs.approximateNumberOfMessagesNotVisible;
  call_store := sqs_store.approximateNumberOfMessagesNotVisible;
  doc_name := "ApproximateNumberOfMessagesNotVisible";
  doc_unit := Some "Count"
|}.

Definition approximateNumberOfMessagesVisible : Helper := {|
  service := SQS;
  call := sqs.approximateNumberOfMessagesVisible;
  call_store := sqs_store.approximateNumberOfMessagesVisible;
  doc_name := "ApproximateNumberOfMessagesVisible";
  doc_unit := Some "Count"
|}.

Definition numberOfEmptyReceives : Helper := {|
  service := SQS;
  call := sqs.numberOfEmptyReceives;
  call_store := sqs_store.numberOfEmptyReceives;
  doc_name := "NumberOfEmptyReceives";
  doc_unit := Some "Count"
|}.

Definition numberOfMessagesDeleted : Helper := {|
  service := SQS;
  call := sqs.numberOfMessagesDeleted;
  call_store := sqs_store.numberOfMessagesDeleted;
  doc_name := "NumberOfMessagesDeleted";
  doc_unit := Some "Count"
|}.

Definition numberOfMessagesReceived : Helper := {|
  service := SQS;
  call := sqs.numberOfMessagesReceived;
  call_store := sqs_store.numberOfMessagesReceived;
  doc_name := "NumberOfMessagesReceived";
  doc_unit := Some "Count"
|}.

Definition numberOfMessagesSent : Helper := {|
  service := SQS;
  call := sqs.numberOfMessagesSent;
  call_store := sqs_store.numberOfMessagesSent;
  doc_name := "NumberOfMessagesSent";
  doc_unit := Some "Count"
|}.

Definition sentMessageSize : Helper := {|
  service := SQS;
  call := sqs.sentMessageSize;
  call_store := sqs_store.sentMessageSize;
  doc_name := "SentMessageSize";
  doc_unit := Some "Bytes"
|}.

Definition compromisedCredentialsRisk : Helper := {|
  service := Cognito;
  call := cognito.compromisedCredentialsRisk;
  call_store := cognito_store.compromisedCredentialsRisk;
  doc_name := "CompromisedCredentialsRisk";
  doc_unit := None
|}.

Definition accountTakeOverRisk : Helper := {|
  service := Cognito;
  call := cognito.accountTakeOverRisk;
  call_store := cognito_store.accountTakeOverRisk;
  doc_name := "AccountTakeOverRisk";
  doc_unit := None
|}.

Definition overrideBlock : Helper := {|
  service := Cognito;
  call := cognito.overrideBlock;
  call_store := cognito_store.overrideBlock;
  doc_name := "OverrideBlock";
  doc_unit := None
|}.

Definition risk : Helper := {|
  service := Cognito;
  call := cognito.risk;
  call_store := cognito_store.risk;
  doc_name := "Risk";
  doc_unit := None
|}.

Definition noRisk : Helper := {|
  service := Cognito;
  call := cognito.noRisk;
  call_store := cognito_store.noRisk;
  doc_name := "NoRisk";
  doc_unit := None
|}.

End doc.

Definition sqs_catalog : list Helper := [
  doc.approximateAgeOfOldestMessage;
  doc.approximateNumberOfMessagesDelayed;
  doc.approximateNumberOfMessagesNotVisible;
  doc.approximateNumberOfMessagesVisible;
  doc.numberOfEmptyReceives;
  doc.numberOfMessagesDeleted;
  doc.numberOfMessagesReceived;
  doc.numberOfMessagesSent;
  doc.sentMessageSize
].

Definition cognito_catalog : list Helper := [
  doc.compromisedCredentialsRisk;
  doc.accountTakeOverRisk;
  doc.overrideBlock;
  doc.risk;
  doc.noRisk
].

Definition catalog : list Helper := sqs_catalog ++ cognito_catalog.

(** The argument of a helper is well typed when it is omitted or has the
    change type of the helper's service. *)
Definition well_typed (s : Service) (change : option obj) : bool :=
  match change with
  | None => true
  | Some o => svc_change s o
  end.

(** The resource reference a change object carries, if any: the value the
    guard [change.queue !== undefined] (resp. [change.userPool]) lets
    through. *)
Definition resource_of (s : Service) (change : option obj) : option value :=
  match prop (default ∅ change) (svc_resource s) with
  | VUndefined => None
  | r => Some r
  end.

(** A unit as a descriptor field: unset when there is none. *)
Definition unit_value (u : option string) : value :=
  match u with
  | Some s => VString s
  | None => VUndefined
  end.

(** The properties a helper sets before it spreads its argument. *)
Definition defaults (hp : Helper) : obj :=
  match doc_unit hp with
  | Some u => {[ "unit" := VString u ]}
  | None => ∅
  end.

(** The dimension record a well-typed call derives from its argument. *)
Definition derived (s : Service) (change : option obj) : gmap string value :=
  match resource_of s change with
  | Some (VObject r) => {[ svc_dimension s := prop r (svc_attribute s) ]}
  | _ => ∅
  end.

(** The object a well-typed call hands to the constructor of the
    descriptor, and the descriptor it returns, in closed form. *)
Definition constructor_args (hp : Helper) (change : option obj) : obj :=
  spread {[ "namespace" := VString (svc_namespace (service hp));
            "name" := VString (doc_name hp) ]}
    (spread_opt (defaults hp) change).

Definition descriptor (hp : Helper) (change : option obj) : cloudwatch.Metric :=
  cloudwatch.withDimensions (constructor_args hp change)
    (derived (service hp) change).

(** Two objects with the same properties, field for field. *)
Definition same_fields (o1 o2 : obj) : Prop := ∀ k, o1 !! k = o2 !! k.

Definition same_input (c1 c2 : option obj) : Prop :=
  match c1, c2 with
  | None, None => True
  | Some o1, Some o2 => same_fields o1 o2
  | _, _ => False
  end.

(** The argument [change] of a call over the store with the object it
    refers to. *)
Inductive points_to (h : store.heap) : option store.loc → option obj → Prop :=
| points_to_omitted : points_to h None None
| points_to_object l o : h !! l = Some o → points_to h (Some l) (Some o).

(** A run over the store agrees with a result of the functions over values:
    it fails when they fail, and otherwise returns a location the store did
    not hold, at which the new store holds the descriptor, every object the
    store held before being as it was. *)
Definition refines (h : store.heap) (x : result (store.loc * store.heap))
    (r : result cloudwatch.Metric) : Prop :=
  match r with
  | Ok d => ∃ l h', x = Ok (l, h') ∧ h ⊆ h' ∧ h !! l = None ∧ h' !! l = Some d
  | TypeError => x = TypeError
  end.

(** The values that are neither [undefined], [null] nor an object. *)
Definition is_primitive (v : value) : bool :=
  match v with
  | VBoolean _ | VNumber _ | VString _ => true
  | VUndefined | VNull | VObject _ => false
  end.

(** * Properties *)

Example sqs_no_change :
  sqs.approximateAgeOfOldestMessage None
  = Ok {[ "namespace" := VString "AWS/SQS";
          "name" := VString "ApproximateAgeOfOldestMessage";
          "unit" := VString "Seconds";
          "dimensions" := VObject ∅ ]}.
Proof. reflexivity. Qed.

Example sqs_null_queue :
  sqs.sentMessageSize (Some {[ "queue" := VNull ]}) = TypeError.
Proof. reflexivity. Qed.

Example sqs_undefined_unit :
  sqs.sentMessageSize (Some {[ "unit" := VUndefined ]})
  = Ok {[ "namespace" := VString "AWS/SQS";
          "name" := VString "SentMessageSize";
          "unit" := VUndefined;
          "dimensions" := VObject ∅ ]}.
Proof. reflexivity. Qed.

Example cognito_with_pool :
  cognito.risk (Some {[ "userPool" := VObject {[ "id" := VString "pool-1" ]} ]})
  = Ok {[ "namespace" := VString "AWS/Cognito";
          "name" := VString "Risk";
          "userPool" := VObject {[ "id" := VString "pool-1" ]};
          "dimensions" := VObject {[ "UserPoolId" := VString "pool-1" ]} ]}.
Proof. reflexivity. Qed.

Example sqs_store_with_queue :
  let o : obj := {[ "queue" := VObject {[ "name" := VString "jobs" ]} ]} in
  sqs_store.numberOfMessagesSent (Some 1%positive) {[ 1%positive := o ]}
  = Ok (6%positive,
        {[ 1%positive := o;
           2%positive := {[ "unit" := VString "Count";
                            "queue" := VObject {[ "name" := VString "jobs" ]} ]};
           3%positive := {[ "QueueName" := VString "jobs" ]};
           4%positive := {[ "namespace" := VString "AWS/SQS";
                            "name" := VString "NumberOfMessagesSent";
                            "unit" := VString "Count";
                            "queue" := VObject {[ "name" := VString "jobs" ]} ]};
           5%positive := {[ "namespace" := VString "AWS/SQS";
                            "name" := VString "NumberOfMessagesSent";
                            "unit" := VString "Count";
                            "queue" := VObject {[ "name" := VString "jobs" ]} ]};
           6%positive := {[ "namespace" := VString "AWS/SQS";
                            "name" := VString "NumberOfMessagesSent";
                            "unit" := VString "Count";
                            "queue" := VObject {[ "name" := VString "jobs" ]};
                            "dimensions" :=
                              VObject {[ "QueueName" := VString "jobs" ]} ]} ]}).
Proof. vm_compute. reflexivity. Qed.

Section spread_facts.
Context (target : obj).

Lemma spread_lookup_source (source : obj) k v :
  source !! k = Some v → spread target source !! k = Some v.
Proof. intros H. unfold spread. by apply lookup_union_Some_l. Qed.

Lemma spread_lookup_target (source : obj) k :
  source !! k = None → spread target source !! k = target !! k.
Proof. intros H. unfold spread. by rewrite lookup_union_r. Qed.

Lemma spread_opt_lookup_source (c : option obj) k v :
  default ∅ c !! k = Some v → spread_opt target c !! k = Some v.
Proof.
  destruct c as [o|]; simpl; [apply spread_lookup_source|].
  by rewrite lookup_empty.
Qed.

Lemma spread_opt_lookup_target (c : option obj) k :
  default ∅ c !! k = None → spread_opt target c !! k = target !! k.
Proof. destruct c as [o|]; simpl; [apply spread_lookup_target | done]. Qed.

Lemma spread_opt_lookup_other (c : option obj) k :
  target !! k = None → spread_opt target c !! k = default ∅ c !! k.
Proof.
  intros Hk. destruct (default ∅ c !! k) as [v|] eqn:E.
  - by apply spread_opt_lookup_source.
  - by rewrite spread_opt_lookup_target.
Qed.

End spread_facts.

Lemma spread_opt_empty (c : option obj) : spread_opt ∅ c = default ∅ c.
Proof. destruct c as [o|]; simpl; [|done]. unfold spread. apply (right_id_L ∅ (∪)). Qed.

(** ** The helpers in closed form *)

Lemma sqs_metric_closed n (o : obj) :
  sqs.SqsMetricChange o = true →
  sqs.metric n (Some o)
  = Ok (cloudwatch.withDimensions (sqs.metric_args n o) (derived SQS (Some o))).
Proof.
  unfold sqs.metric, sqs.metric_dimensions, sqs.SqsMetricChange.
  unfold derived, resource_of, prop; simpl.
  destruct (o !! "queue") as [[]|]; simpl; intros Hty; done.
Qed.

Lemma cognito_metric_closed n (c : option obj) :
  well_typed Cognito c = true →
  cognito.metric n c
  = Ok (cloudwatch.withDimensions (cognito.metric_args n (default ∅ c))
          (derived Cognito c)).
Proof.
  unfold cognito.metric, cognito.metric_dimensions.
  unfold derived, resource_of, prop.
  destruct c as [o|]; simpl; [|done].
  unfold cognito.CognitoMetricChange.
  destruct (o !! "userPool") as [[]|]; simpl; intros Hty; done.
Qed.

Lemma sqs_with_unit_closed n u (c : option obj) :
  well_typed SQS c = true →
  sqs.metric n (Some (spread_opt {[ "unit" := VString u ]} c))
  = Ok (cloudwatch.withDimensions
          (sqs.metric_args n (spread_opt {[ "unit" := VString u ]} c))
          (derived SQS c)).
Proof.
  intros Hty.
  assert (Hq : spread_opt {[ "unit" := VString u ]} c !! "queue"
               = default ∅ c !! "queue") by by apply spread_opt_lookup_other.
  rewrite sqs_metric_closed.
  - do 2 f_equal. unfold derived, resource_of, prop; simpl. by rewrite Hq.
  - unfold sqs.SqsMetricChange. rewrite Hq.
    destruct c as [o|]; [exact Hty | done].
Qed.

Lemma call_descriptor hp (c : option obj) :
  hp ∈ catalog → well_typed (service hp) c = true →
  call hp c = Ok (descriptor hp c).
Proof.
  intros Hin Hty. unfold catalog, sqs_catalog, cognito_catalog in Hin.
  simpl in Hin. repeat (apply elem_of_cons in Hin as [-> | Hin]);
    try (by apply elem_of_nil in Hin); simpl in *.
  all: try (by apply sqs_with_unit_closed).
  all: unfold descriptor, constructor_args, defaults; simpl;
    rewrite spread_opt_empty.
  all: by apply cognito_metric_closed.
Qed.

(** ** The store *)

Lemma fresh_lookup (h : store.heap) : h !! fresh (dom h) = None.
Proof. apply not_elem_of_dom, is_fresh. Qed.

Section store_steps.
Import store.
Context {B : Type} (h : heap).

Lemma bind_ret {A : Type} (a : A) (f : A → M B) : (mret a ≫= f) h = f a h.
Proof. reflexivity. Qed.

Lemma bind_alloc (o : obj) (f : loc → M B) :
  (alloc o ≫= f) h = f (fresh (dom h)) (<[fresh (dom h) := o]> h).
Proof. reflexivity. Qed.

Lemma bind_load l (o : obj) (f : obj → M B) :
  h !! l = Some o → (load l ≫= f) h = f o h.
Proof. intros H. unfold mbind, M_bind, bind, load. by rewrite H. Qed.

Lemma bind_assign l k v (o : obj) (f : () → M B) :
  h !! l = Some o → (assign l k v ≫= f) h = f () (<[l := <[k := v]> o]> h).
Proof. intros H. unfold mbind, M_bind, bind, assign. by rewrite H. Qed.

Lemma bind_lift {A : Type} (a : A) (f : A → M B) : (lift (Ok a) ≫= f) h = f a h.
Proof. reflexivity. Qed.

Lemma bind_new_Metric l (o : obj) (f : loc → M B) :
  h !! l = Some o →
  (new_Metric l ≫= f) h
  = f (fresh (dom h)) (<[fresh (dom h) := cloudwatch.new_Metric o]> h).
Proof.
  intros H. unfold new_Metric, mbind, M_bind, bind, load; cbv beta.
  by rewrite H.
Qed.

Lemma bind_assoc {A A' : Type} (m : M A) (f : A → M A') (g : A' → M B) :
  ((m ≫= f) ≫= g) h = (m ≫= λ a, f a ≫= g) h.
Proof.
  unfold mbind, M_bind, bind. by destruct (m h) as [[a h']|].
Qed.

Lemma bind_throw {A : Type} (f : A → M B) : (lift TypeError ≫= f) h = TypeError.
Proof. reflexivity. Qed.

End store_steps.

Lemma withDimensions_run (h : store.heap) m ld (o d : obj) :
  h !! m = Some o → h !! ld = Some d →
  store.withDimensions m ld h
  = Ok (fresh (dom h), <[fresh (dom h) := cloudwatch.withDimensions o d]> h).
Proof.
  intros Hm Hd.
  unfold store.withDimensions, mbind, store.M_bind, store.bind, store.load.
  cbv beta. by rewrite Hm, Hd.
Qed.

(** Names the location of the next allocation, keeping only that the store
    does not hold it. *)
Ltac name_fresh l H :=
  match goal with
  | |- context [fresh (dom ?h)] =>
      pose proof (fresh_lookup h) as H;
      set (l := fresh (dom h)) in *; clearbody l
  end.

Lemma refines_weaken (h h1 : store.heap) x r :
  h ⊆ h1 → refines h1 x r → refines h x r.
Proof.
  intros Hsub. destruct r as [d|]; simpl; [|done].
  intros (l & h' & -> & Hsub' & Hnew & Hd). exists l, h'.
  split_and!; [done | by etrans | | done].
  destruct (h !! l) as [o|] eqn:E; [|done].
  apply (lookup_weaken _ _ _ _ E) in Hsub. congruence.
Qed.

(** The end of [metric]: the argument object, the descriptor, and the
    descriptor with the dimensions. *)
Lemma construct_refines (h : store.heap) (args dims : obj) (ld : store.loc) :
  h !! ld = Some dims →
  refines h
    ((store.alloc args ≫= λ a, store.new_Metric a ≫= λ m,
        store.withDimensions m ld) h)
    (Ok (cloudwatch.withDimensions (cloudwatch.new_Metric args) dims)).
Proof.
  intros Hld. simpl. rewrite bind_alloc. name_fresh la Hla.
  assert (la ≠ ld) by congruence.
  erewrite bind_new_Metric by apply lookup_insert_eq. name_fresh lm Hlm.
  assert (lm ≠ ld) by (intros ->; rewrite lookup_insert_ne in Hlm; congruence).
  erewrite withDimensions_run;
    [| apply lookup_insert_eq | by rewrite !lookup_insert_ne].
  name_fresh lr Hlr. exists lr, (<[lr := cloudwatch.withDimensions (cloudwatch.new_Metric args) dims]> (<[lm:=cloudwatch.new_Metric args]> (<[la:=args]> h))).
  split_and!; [done | | | apply lookup_insert_eq].
  - etrans; [by apply insert_subseteq|]. etrans; [by apply insert_subseteq|].
    by apply insert_subseteq.
  - apply lookup_insert_None in Hlr as [Hlr _].
    by apply lookup_insert_None in Hlr as [Hlr _].
Qed.

(** [metric] over the store, for a change object the store holds: one
    proof script for both services. *)
Ltac metric_refines o Hl :=
  change (default ∅ (Some o)) with o;
  rewrite bind_ret, bind_alloc;
  let ld := fresh "ld" in
  let Hld := fresh "Hld" in
  name_fresh ld Hld;
  erewrite bind_load by (rewrite lookup_insert_ne by congruence; exact Hl);
  match goal with
  | |- context [prop o ?k] => destruct (prop o k)
  end;
  cbn [get_prop mbind result_bind];
  rewrite ?bind_assoc, ?bind_throw, ?bind_ret, ?bind_lift;
  try done;
  try (erewrite bind_assign by apply lookup_insert_eq; rewrite insert_insert_eq);
  (erewrite bind_load by (rewrite lookup_insert_ne by congruence; exact Hl));
  (eapply refines_weaken; [by apply insert_subseteq|]);
  apply construct_refines, lookup_insert_eq.

Lemma sqs_store_metric_some n (h : store.heap) l (o : obj) :
  h !! l = Some o →
  refines h (sqs_store.metric n (Some l) h) (sqs.metric n (Some o)).
Proof.
  intros Hl. unfold sqs_store.metric, sqs.metric, sqs.metric_dimensions.
  metric_refines o Hl.
Qed.

Lemma cognito_store_metric_some n (h : store.heap) l (o : obj) :
  h !! l = Some o →
  refines h (cognito_store.metric n (Some l) h) (cognito.metric n (Some o)).
Proof.
  intros Hl. unfold cognito_store.metric, cognito.metric, cognito.metric_dimensions.
  metric_refines o Hl.
Qed.

(** Without an argument the default parameter is a new, empty object. *)
Lemma cognito_store_metric_none n (h : store.heap) :
  refines h (cognito_store.metric n None h) (cognito.metric n None).
Proof.
  change (cognito.metric n None) with (cognito.metric n (Some ∅)).
  change (cognito_store.metric n None h)
    with ((store.alloc ∅ ≫= λ l, cognito_store.metric n (Some l)) h).
  rewrite bind_alloc. name_fresh l0 Hl0.
  eapply refines_weaken; [by apply insert_subseteq|].
  apply cognito_store_metric_some, lookup_insert_eq.
Qed.

Lemma sqs_store_with_unit n u (h : store.heap) change (c : option obj) :
  points_to h change c →
  refines h (sqs_store.with_unit n u change h)
    (sqs.metric n (Some (spread_opt {[ "unit" := VString u ]} c))).
Proof.
  intros Hpt. unfold sqs_store.with_unit.
  destruct Hpt as [|l o Hl]; cbn [store.load_opt].
  - rewrite bind_ret, bind_alloc. name_fresh l0 Hl0.
    eapply refines_weaken; [by apply insert_subseteq|].
    apply sqs_store_metric_some, lookup_insert_eq.
  - rewrite bind_assoc. erewrite bind_load by exact Hl.
    rewrite bind_ret, bind_alloc. name_fresh l0 Hl0.
    eapply refines_weaken; [by apply insert_subseteq|].
    apply sqs_store_metric_some, lookup_insert_eq.
Qed.

Lemma call_store_refines hp (h : store.heap) change (c : option obj) :
  hp ∈ catalog → points_to h change c →
  refines h (call_store hp change h) (call hp c).
Proof.
  intros Hin Hpt. unfold catalog, sqs_catalog, cognito_catalog in Hin.
  simpl in Hin. repeat (apply elem_of_cons in Hin as [-> | Hin]);
    try (by apply elem_of_nil in Hin); simpl.
  all: try (by apply sqs_store_with_unit).
  all: destruct Hpt as [|l o Hl];
    [apply cognito_store_metric_none | by apply cognito_store_metric_some].
Qed.

(** ** The fields of the argument object and of the descriptor *)

Lemma defaults_lookup_other hp k : k ≠ "unit" → defaults hp !! k = None.
Proof.
  intros Hk. unfold defaults. destruct (doc_unit hp); [|done].
  by rewrite lookup_singleton_ne.
Qed.

Lemma constructor_args_change hp (c : option obj) k v :
  default ∅ c !! k = Some v → constructor_args hp c !! k = Some v.
Proof.
  intros Hk. apply spread_lookup_source. by apply spread_opt_lookup_source.
Qed.

Lemma constructor_args_namespace hp (c : option obj) :
  default ∅ c !! "namespace" = None →
  constructor_args hp c !! "namespace"
  = Some (VString (svc_namespace (service hp))).
Proof.
  intros Hk. unfold constructor_args. rewrite spread_lookup_target; [done|].
  rewrite spread_opt_lookup_target by done. by apply defaults_lookup_other.
Qed.

Lemma constructor_args_name hp (c : option obj) :
  default ∅ c !! "name" = None →
  constructor_args hp c !! "name" = Some (VString (doc_name hp)).
Proof.
  intros Hk. unfold constructor_args. rewrite spread_lookup_target; [done|].
  rewrite spread_opt_lookup_target by done. by apply defaults_lookup_other.
Qed.

Lemma constructor_args_unit hp (c : option obj) :
  default ∅ c !! "unit" = None →
  constructor_args hp c !! "unit" = VString <$> doc_unit hp.
Proof.
  intros Hk. unfold constructor_args.
  assert (Hu : spread_opt (defaults hp) c !! "unit" = VString <$> doc_unit hp).
  { rewrite spread_opt_lookup_target by done.
    unfold defaults. by destruct (doc_unit hp). }
  destruct (doc_unit hp) as [u|]; simpl in *.
  - by apply spread_lookup_source.
  - by rewrite spread_lookup_target.
Qed.

Lemma constructor_args_dimensions hp (c : option obj) :
  constructor_args hp c !! "dimensions" = default ∅ c !! "dimensions".
Proof.
  destruct (default ∅ c !! "dimensions") as [v|] eqn:E.
  - by apply constructor_args_change.
  - unfold constructor_args. rewrite spread_lookup_target.
    + by rewrite lookup_insert_ne, lookup_singleton_ne.
    + rewrite spread_opt_lookup_target by done. by apply defaults_lookup_other.
Qed.

Lemma descriptor_lookup hp (c : option obj) k :
  k ≠ "dimensions" → descriptor hp c !! k = constructor_args hp c !! k.
Proof.
  intros Hk. unfold descriptor, cloudwatch.withDimensions.
  by rewrite lookup_insert_ne.
Qed.

Lemma descriptor_dimensions hp (c : option obj) :
  cloudwatch.dimensions (descriptor hp c)
  = derived (service hp) c ∪ cloudwatch.dimensions (default ∅ c).
Proof.
  unfold descriptor, cloudwatch.withDimensions.
  unfold cloudwatch.dimensions at 1. rewrite lookup_insert_eq.
  unfold cloudwatch.dimensions. by rewrite constructor_args_dimensions.
Qed.

Lemma derived_resource s (c : option obj) (q : obj) :
  default ∅ c !! svc_resource s = Some (VObject q) →
  derived s c = {[ svc_dimension s := prop q (svc_attribute s) ]}.
Proof. intros Hq. unfold derived, resource_of, prop. by rewrite Hq. Qed.

Lemma derived_no_resource s (c : option obj) :
  resource_of s c = None → derived s c = ∅.
Proof. intros Hr. unfold derived. by rewrite Hr. Qed.

Lemma resource_well_typed hp (o q : obj) :
  hp ∈ catalog → o !! svc_resource (service hp) = Some (VObject q) →
  well_typed (service hp) (Some o) = true.
Proof.
  intros Hin. unfold catalog, sqs_catalog, cognito_catalog in Hin.
  simpl in Hin. repeat (apply elem_of_cons in Hin as [-> | Hin]);
    try (by apply elem_of_nil in Hin); simpl.
  all: unfold sqs.SqsMetricChange, cognito.CognitoMetricChange.
  all: by intros ->.
Qed.

Lemma no_resource_well_typed hp (c : option obj) :
  hp ∈ catalog → resource_of (service hp) c = None →
  well_typed (service hp) c = true.
Proof.
  intros Hin. destruct c as [o|]; [|done].
  unfold catalog, sqs_catalog, cognito_catalog in Hin.
  simpl in Hin. repeat (apply elem_of_cons in Hin as [-> | Hin]);
    try (by apply elem_of_nil in Hin); simpl.
  all: unfold resource_of, prop, sqs.SqsMetricChange, cognito.CognitoMetricChange.
  all: simpl.
  all: by destruct (o !! _) as [[]|].
Qed.

(** ** Namespace and name *)

(** C1, as stated, fails: [metric] spreads [change] after [namespace] and
    [name], so a change object that carries a [namespace] or a [name] of its
    own (next to a declared field such as [unit]) replaces the constants of
    the helper. *)
Lemma change_overrides_namespace :
  ∃ d,
    sqs.approximateAgeOfOldestMessage
      (Some {[ "unit" := VString "Count";
               "namespace" := VString "Custom/App";
               "name" := VString "Latency" ]})
    = Ok d
    ∧ cloudwatch.namespace d = VString "Custom/App"
    ∧ cloudwatch.namespace d ≠ VString "AWS/SQS"
    ∧ cloudwatch.name d = VString "Latency"
    ∧ cloudwatch.name d ≠ VString "ApproximateAgeOfOldestMessage".
Proof.
  eexists. split; [reflexivity|].
  split_and!; [reflexivity | discriminate | reflexivity | discriminate].
Qed.

(** C1, amended: for every helper of either catalog and every well-typed
    change object that carries no [namespace] and no [name] property of its
    own, whatever its other properties, the descriptor has the namespace of
    the service and the documented name of the helper. *)
Theorem namespace_and_name_documented hp (c : option obj) :
  hp ∈ catalog → well_typed (service hp) c = true →
  default ∅ c !! "namespace" = None → default ∅ c !! "name" = None →
  ∃ d, call hp c = Ok d
       ∧ cloudwatch.namespace d = VString (svc_namespace (service hp))
       ∧ cloudwatch.name d = VString (doc_name hp).
Proof.
  intros Hin Hty Hns Hname. exists (descriptor hp c).
  split; [by apply call_descriptor|].
  unfold cloudwatch.namespace, cloudwatch.name, prop.
  rewrite !descriptor_lookup by done.
  by rewrite constructor_args_namespace, constructor_args_name.
Qed.

Lemma namespace_and_name_documented_witness :
  let c : option obj :=
    Some {[ "period" := VNumber 60;
            "queue" := VObject {[ "name" := VString "jobs" ]} ]} in
  doc.approximateAgeOfOldestMessage ∈ catalog
  ∧ well_typed SQS c = true
  ∧ default ∅ c !! "namespace" = None
  ∧ default ∅ c !! "name" = None
  ∧ ∃ d, sqs.approximateAgeOfOldestMessage c = Ok d
         ∧ cloudwatch.namespace d = VString "AWS/SQS"
         ∧ cloudwatch.name d = VString "ApproximateAgeOfOldestMessage".
Proof.
  intros c.
  assert (Hin : doc.approximateAgeOfOldestMessage ∈ catalog) by repeat constructor.
  split_and!; [exact Hin | reflexivity | reflexivity | reflexivity |].
  apply (namespace_and_name_documented doc.approximateAgeOfOldestMessage c);
    [exact Hin | reflexivity | reflexivity | reflexivity].
Defined.

(** ** Dimensions *)

(** C2: for every helper, when the change object holds a resource reference,
    the descriptor has the derived dimension, whatever [dimensions] the
    change object carries itself, and every other property of the change
    object, its [unit] among them, is in the descriptor as it was given. *)
Theorem derived_dimension_survives hp (o q : obj) :
  hp ∈ catalog → o !! svc_resource (service hp) = Some (VObject q) →
  ∃ d, call hp (Some o) = Ok d
       ∧ cloudwatch.dimensions d !! svc_dimension (service hp)
         = Some (prop q (svc_attribute (service hp)))
       ∧ ∀ k v, k ≠ "dimensions" → o !! k = Some v → d !! k = Some v.
Proof.
  intros Hin Hq. exists (descriptor hp (Some o)).
  split; [by eapply call_descriptor, resource_well_typed|]. split.
  - rewrite descriptor_dimensions, (derived_resource _ _ q) by done.
    apply lookup_union_Some_l, lookup_singleton_eq.
  - intros k v Hk Hv. rewrite descriptor_lookup by done.
    by apply constructor_args_change.
Qed.

Lemma derived_dimension_survives_witness :
  let q : obj := {[ "name" := VString "jobs" ]} in
  let o : obj :=
    {[ "unit" := VString "Count"; "queue" := VObject q;
       "dimensions" := VObject {[ "QueueName" := VString "other" ]} ]} in
  doc.sentMessageSize ∈ catalog
  ∧ o !! "queue" = Some (VObject q)
  ∧ ∃ d, sqs.sentMessageSize (Some o) = Ok d
         ∧ cloudwatch.dimensions d !! "QueueName" = Some (VString "jobs")
         ∧ ∀ k v, k ≠ "dimensions" → o !! k = Some v → d !! k = Some v.
Proof.
  intros q o.
  assert (Hin : doc.sentMessageSize ∈ catalog) by repeat constructor.
  split_and!; [exact Hin | reflexivity |].
  apply (derived_dimension_survives doc.sentMessageSize o q);
    [exact Hin | reflexivity].
Defined.

(** C3, as stated, fails: the derived dimension is merged into the
    dimensions of the change object, which stay in the descriptor. *)
Lemma change_dimensions_are_kept :
  ∃ d,
    sqs.numberOfMessagesSent
      (Some {[ "queue" := VObject {[ "name" := VString "jobs" ]};
               "dimensions" := VObject {[ "Stage" := VString "prod" ]} ]})
    = Ok d
    ∧ cloudwatch.dimensions d
      = {[ "QueueName" := VString "jobs"; "Stage" := VString "prod" ]}
    ∧ size (cloudwatch.dimensions d) = 2.
Proof. eexists. split; [reflexivity|]. split; reflexivity. Qed.

(** C3, amended: for every helper, a call with a resource reference [R] and
    a change object that carries no dimensions of its own yields a
    descriptor whose dimension map has exactly one entry, the dimension key
    of the service mapped to the identifying attribute of [R]. *)
Theorem resource_dimension_only hp (o q : obj) :
  hp ∈ catalog → o !! svc_resource (service hp) = Some (VObject q) →
  cloudwatch.dimensions o = ∅ →
  ∃ d, call hp (Some o) = Ok d
       ∧ cloudwatch.dimensions d
         = {[ svc_dimension (service hp) := prop q (svc_attribute (service hp)) ]}.
Proof.
  intros Hin Hq Hdims. exists (descriptor hp (Some o)).
  split; [by eapply call_descriptor, resource_well_typed|].
  rewrite descriptor_dimensions, (derived_resource _ _ q) by done.
  simpl. rewrite Hdims. apply (right_id_L ∅ (∪)).
Qed.

Lemma resource_dimension_only_witness :
  let q : obj := {[ "id" := VString "eu-west-1_Pool"; "arn" := VString "arn:pool" ]} in
  let o : obj := {[ "userPool" := VObject q; "period" := VNumber 300 ]} in
  doc.accountTakeOverRisk ∈ catalog
  ∧ o !! "userPool" = Some (VObject q)
  ∧ cloudwatch.dimensions o = ∅
  ∧ ∃ d, cognito.accountTakeOverRisk (Some o) = Ok d
         ∧ cloudwatch.dimensions d = {[ "UserPoolId" := VString "eu-west-1_Pool" ]}.
Proof.
  intros q o.
  assert (Hin : doc.accountTakeOverRisk ∈ catalog) by repeat constructor.
  split_and!; [exact Hin | reflexivity | reflexivity |].
  apply (resource_dimension_only doc.accountTakeOverRisk o q);
    [exact Hin | reflexivity | reflexivity].
Defined.

(** C4, as stated, fails: a change object without a resource reference may
    still carry a [unit], which replaces the default of the helper, or
    [dimensions], which stay in the descriptor. *)
Lemma change_without_resource_counts :
  (∃ d, sqs.approximateAgeOfOldestMessage (Some {[ "unit" := VString "Count" ]})
        = Ok d
        ∧ cloudwatch.unit d = VString "Count"
        ∧ cloudwatch.unit d ≠ VString "Seconds")
  ∧ (∃ d, cognito.risk
            (Some {[ "userPool" := VUndefined;
                     "dimensions" := VObject {[ "Stage" := VString "prod" ]} ]})
          = Ok d
          ∧ cloudwatch.dimensions d = {[ "Stage" := VString "prod" ]}
          ∧ cloudwatch.dimensions d ≠ ∅).
Proof.
  split; eexists; (split; [reflexivity|]); (split; [reflexivity|]).
  - discriminate.
  - intros H. apply (f_equal (lookup "Stage")) in H. vm_compute in H.
    discriminate.
Qed.

(** C4, amended: for every helper, a call without a resource reference (no
    change object at all, or one whose resource property is absent or
    undefined) whose change object carries no [unit] and no dimensions of its
    own yields a descriptor with no dimension and with the documented default
    unit of the helper, which for a Cognito helper is no unit. *)
Theorem no_resource_no_dimension hp (c : option obj) :
  hp ∈ catalog → resource_of (service hp) c = None →
  default ∅ c !! "unit" = None → cloudwatch.dimensions (default ∅ c) = ∅ →
  ∃ d, call hp c = Ok d
       ∧ cloudwatch.dimensions d = ∅
       ∧ cloudwatch.unit d = unit_value (doc_unit hp).
Proof.
  intros Hin Hres Hunit Hdims. exists (descriptor hp c).
  split; [by apply call_descriptor, no_resource_well_typed|]. split.
  - rewrite descriptor_dimensions, derived_no_resource, Hdims by done.
    apply (left_id_L ∅ (∪)).
  - unfold cloudwatch.unit, prop.
    rewrite descriptor_lookup, constructor_args_unit by done.
    by destruct (doc_unit hp).
Qed.

Lemma no_resource_no_dimension_witness :
  let c : option obj := Some {[ "queue" := VUndefined; "period" := VNumber 60 ]} in
  doc.sentMessageSize ∈ catalog
  ∧ resource_of SQS c = None
  ∧ default ∅ c !! "unit" = None
  ∧ cloudwatch.dimensions (default ∅ c) = ∅
  ∧ ∃ d, sqs.sentMessageSize c = Ok d
         ∧ cloudwatch.dimensions d = ∅
         ∧ cloudwatch.unit d = VString "Bytes".
Proof.
  intros c.
  assert (Hin : doc.sentMessageSize ∈ catalog) by repeat constructor.
  split_and!; [exact Hin | reflexivity | reflexivity | reflexivity |].
  apply (no_resource_no_dimension doc.sentMessageSize c);
    [exact Hin | reflexivity | reflexivity | reflexivity].
Defined.

(** ** Units *)

(** C5: for every SQS helper and every well-typed argument, the unit of the
    descriptor is the documented default of the helper when the change
    object has no [unit] property, and the [unit] of the change object when
    it has one. *)
Theorem sqs_unit_default_or_override hp (c : option obj) :
  hp ∈ sqs_catalog → well_typed SQS c = true →
  ∃ d u, call hp c = Ok d
         ∧ doc_unit hp = Some u
         ∧ (default ∅ c !! "unit" = None → cloudwatch.unit d = VString u)
         ∧ (∀ v, default ∅ c !! "unit" = Some v → cloudwatch.unit d = v).
Proof.
  intros Hin Hty.
  assert (Hcat : hp ∈ catalog) by (apply elem_of_app; by left).
  assert (Hsvc : service hp = SQS ∧ ∃ u, doc_unit hp = Some u).
  { unfold sqs_catalog in Hin.
    repeat (apply elem_of_cons in Hin as [-> | Hin]);
      try (by apply elem_of_nil in Hin); simpl; eauto. }
  destruct Hsvc as [Hsvc [u Hu]].
  exists (descriptor hp c), u.
  split; [apply call_descriptor; [done | by rewrite Hsvc]|].
  split; [done|]. unfold cloudwatch.unit, prop. split.
  - intros Hunit.
    by rewrite descriptor_lookup, constructor_args_unit, Hu by done.
  - intros v Hunit. rewrite descriptor_lookup by done.
    by rewrite (constructor_args_change _ _ _ v).
Qed.

Lemma sqs_unit_default_or_override_witness :
  let c : option obj :=
    Some {[ "unit" := VString "Bytes";
            "queue" := VObject {[ "name" := VString "jobs" ]} ]} in
  doc.numberOfMessagesReceived ∈ sqs_catalog
  ∧ well_typed SQS c = true
  ∧ ∃ d u, sqs.numberOfMessagesReceived c = Ok d
           ∧ Some "Count" = Some u
           ∧ (default ∅ c !! "unit" = None → cloudwatch.unit d = VString u)
           ∧ (∀ v, default ∅ c !! "unit" = Some v → cloudwatch.unit d = v).
Proof.
  intros c.
  assert (Hin : doc.numberOfMessagesReceived ∈ sqs_catalog) by repeat constructor.
  split_and!; [exact Hin | reflexivity |].
  apply (sqs_unit_default_or_override doc.numberOfMessagesReceived c);
    [exact Hin | reflexivity].
Defined.

(** C9: no Cognito helper supplies a unit of its own: called without a
    change object, or with a well-typed one that has no [unit] property, it
    returns a descriptor without a [unit]; every SQS helper called without a
    change object returns a descriptor whose unit is a string. *)
Theorem cognito_unit_unset :
  (∀ hp (c : option obj),
     hp ∈ cognito_catalog → well_typed Cognito c = true →
     default ∅ c !! "unit" = None →
     ∃ d, call hp c = Ok d ∧ d !! "unit" = None
          ∧ cloudwatch.unit d = VUndefined)
  ∧ (∀ hp, hp ∈ sqs_catalog →
       ∃ d u, call hp None = Ok d ∧ cloudwatch.unit d = VString u).
Proof.
  split.
  - intros hp c Hin Hty Hunit.
    assert (Hcat : hp ∈ catalog) by (apply elem_of_app; by right).
    assert (Hsvc : service hp = Cognito ∧ doc_unit hp = None).
    { unfold cognito_catalog in Hin.
      repeat (apply elem_of_cons in Hin as [-> | Hin]);
        try (by apply elem_of_nil in Hin); simpl; eauto. }
    destruct Hsvc as [Hsvc Hu]. exists (descriptor hp c).
    split; [apply call_descriptor; [done | by rewrite Hsvc]|].
    unfold cloudwatch.unit, prop.
    by rewrite descriptor_lookup, constructor_args_unit, Hu by done.
  - intros hp Hin. unfold sqs_catalog in Hin.
    repeat (apply elem_of_cons in Hin as [-> | Hin]);
      try (by apply elem_of_nil in Hin); simpl.
    all: by eexists _, _.
Qed.

Lemma cognito_unit_unset_witness :
  let c : option obj :=
    Some {[ "userPool" := VObject {[ "id" := VString "eu-west-1_Pool" ]} ]} in
  doc.noRisk ∈ cognito_catalog
  ∧ well_typed Cognito c = true
  ∧ default ∅ c !! "unit" = None
  ∧ (∃ d, cognito.noRisk c = Ok d ∧ d !! "unit" = None
          ∧ cloudwatch.unit d = VUndefined)
  ∧ doc.numberOfEmptyReceives ∈ sqs_catalog
  ∧ ∃ d u, sqs.numberOfEmptyReceives None = Ok d ∧ cloudwatch.unit d = VString u.
Proof.
  intros c.
  assert (Hin : doc.noRisk ∈ cognito_catalog) by repeat constructor.
  assert (Hin' : doc.numberOfEmptyReceives ∈ sqs_catalog) by repeat constructor.
  split_and!; [exact Hin | reflexivity | reflexivity | | exact Hin' |].
  - apply (proj1 cognito_unit_unset doc.noRisk c);
      [exact Hin | reflexivity | reflexivity].
  - apply (proj2 cognito_unit_unset doc.numberOfEmptyReceives); exact Hin'.
Defined.

(** ** The argument object *)

(** C10: when the change object holds a resource reference, the object
    handed to the constructor of the descriptor holds that same reference
    under the same property, next to [namespace], [name] and every property
    of the change object. *)
Theorem resource_reference_passed_through :
  (∀ n (o q : obj),
     o !! "queue" = Some (VObject q) →
     sqs.metric n (Some o)
     = Ok (cloudwatch.withDimensions
             (cloudwatch.new_Metric (sqs.metric_args n o))
             {[ "QueueName" := prop q "name" ]})
     ∧ sqs.metric_args n o !! "queue" = Some (VObject q)
     ∧ is_Some (sqs.metric_args n o !! "namespace")
     ∧ is_Some (sqs.metric_args n o !! "name")
     ∧ ∀ k v, o !! k = Some v → sqs.metric_args n o !! k = Some v)
  ∧ (∀ n (o q : obj),
       o !! "userPool" = Some (VObject q) →
       cognito.metric n (Some o)
       = Ok (cloudwatch.withDimensions
               (cloudwatch.new_Metric (cognito.metric_args n o))
               {[ "UserPoolId" := prop q "id" ]})
       ∧ cognito.metric_args n o !! "userPool" = Some (VObject q)
       ∧ is_Some (cognito.metric_args n o !! "namespace")
       ∧ is_Some (cognito.metric_args n o !! "name")
       ∧ ∀ k v, o !! k = Some v → cognito.metric_args n o !! k = Some v).
Proof.
  split; intros n o q Hq.
  - split.
    { unfold sqs.metric, sqs.metric_dimensions, prop; simpl. by rewrite Hq. }
    unfold sqs.metric_args, spread.
    split_and!; [by apply lookup_union_Some_l | | |].
    + apply lookup_union_is_Some. right. by rewrite lookup_insert_eq.
    + apply lookup_union_is_Some. right.
      by rewrite lookup_insert_ne, lookup_singleton_eq.
    + intros k v Hk. by apply lookup_union_Some_l.
  - split.
    { unfold cognito.metric, cognito.metric_dimensions, prop; simpl.
      by rewrite Hq. }
    unfold cognito.metric_args, spread.
    split_and!; [by apply lookup_union_Some_l | | |].
    + apply lookup_union_is_Some. right. by rewrite lookup_insert_eq.
    + apply lookup_union_is_Some. right.
      by rewrite lookup_insert_ne, lookup_singleton_eq.
    + intros k v Hk. by apply lookup_union_Some_l.
Qed.

Lemma resource_reference_passed_through_witness :
  let q : obj := {[ "name" := VString "jobs"; "arn" := VString "arn:jobs" ]} in
  let o : obj := {[ "unit" := VString "Count"; "queue" := VObject q ]} in
  o !! "queue" = Some (VObject q)
  ∧ sqs.metric_args sqs.NumberOfMessagesSent o
    = {[ "namespace" := VString "AWS/SQS";
         "name" := VString "NumberOfMessagesSent";
         "unit" := VString "Count";
         "queue" := VObject q ]}
  ∧ sqs.metric_args sqs.NumberOfMessagesSent o !! "queue" = Some (VObject q).
Proof.
  intros q o.
  assert (Hq : o !! "queue" = Some (VObject q)) by reflexivity.
  split_and!; [exact Hq | reflexivity |].
  destruct (proj1 resource_reference_passed_through
              sqs.NumberOfMessagesSent o q Hq) as (_ & Hargs & _).
  exact Hargs.
Defined.

(** ** No failure *)

(** C7: for every metric name of either enumeration and every well-typed
    argument, the omitted one included, [metric] returns a descriptor, and
    so does every helper of either catalog. *)
Theorem helpers_cannot_fail :
  (∀ n (c : option obj),
     well_typed SQS c = true → ∃ d, sqs.metric n c = Ok d)
  ∧ (∀ n (c : option obj),
       well_typed Cognito c = true → ∃ d, cognito.metric n c = Ok d)
  ∧ (∀ hp (c : option obj),
       hp ∈ catalog → well_typed (service hp) c = true →
       ∃ d, call hp c = Ok d).
Proof.
  split_and!.
  - intros n c Hty.
    change (sqs.metric n c) with (sqs.metric n (Some (default ∅ c))).
    eexists. apply sqs_metric_closed. by destruct c.
  - intros n c Hty. eexists. by apply cognito_metric_closed.
  - intros hp c Hin Hty. eexists. by apply call_descriptor.
Qed.

Lemma helpers_cannot_fail_witness :
  let c : option obj :=
    Some {[ "queue" := VObject {[ "name" := VString "jobs" ]};
            "statistic" := VString "Maximum" ]} in
  well_typed SQS c = true
  ∧ (∃ d, sqs.metric sqs.SentMessageSize c = Ok d)
  ∧ well_typed Cognito None = true
  ∧ (∃ d, cognito.metric cognito.OverrideBlock None = Ok d)
  ∧ doc.approximateNumberOfMessagesVisible ∈ catalog
  ∧ ∃ d, sqs.approximateNumberOfMessagesVisible c = Ok d.
Proof.
  intros c.
  assert (Hin : doc.approximateNumberOfMessagesVisible ∈ catalog)
    by repeat constructor.
  destruct helpers_cannot_fail as (Hsqs & Hcognito & Hcall).
  split_and!; [reflexivity | | reflexivity | | exact Hin |].
  - apply (Hsqs sqs.SentMessageSize c). reflexivity.
  - apply (Hcognito cognito.OverrideBlock None). reflexivity.
  - apply (Hcall doc.approximateNumberOfMessagesVisible c);
      [exact Hin | reflexivity].
Defined.

(** ** The store *)

Lemma same_input_eq (c1 c2 : option obj) : same_input c1 c2 → c1 = c2.
Proof.
  destruct c1 as [o1|], c2 as [o2|]; simpl; try done.
  intros H. f_equal. by apply map_eq.
Qed.

Lemma points_to_weaken (h h' : store.heap) change (c : option obj) :
  h ⊆ h' → points_to h change c → points_to h' change c.
Proof.
  intros Hsub [|l o Hl]; constructor. by eapply lookup_weaken.
Qed.

(** C8: for every helper and every well-typed argument held in a store, the
    call returns a descriptor at a location the store did not hold, leaves
    every object the store held, the change object among them, as it was,
    and the descriptor is the one the function of the argument's value
    gives. *)
Theorem helpers_leave_store_intact hp (h : store.heap) change (c : option obj) :
  hp ∈ catalog → points_to h change c → well_typed (service hp) c = true →
  ∃ l h' d,
    call_store hp change h = Ok (l, h')
    ∧ (∀ l0 o0, h !! l0 = Some o0 → h' !! l0 = Some o0)
    ∧ h !! l = None
    ∧ call hp c = Ok d
    ∧ h' !! l = Some d.
Proof.
  intros Hin Hpt Hty.
  pose proof (call_store_refines hp h change c Hin Hpt) as Href.
  rewrite (call_descriptor hp c Hin Hty) in Href |- *.
  destruct Href as (l & h' & Hrun & Hsub & Hnew & Hd).
  exists l, h', (descriptor hp c). split_and!; try done.
  intros l0 o0 Hl0. by eapply lookup_weaken.
Qed.

Lemma helpers_leave_store_intact_witness :
  let o : obj :=
    {[ "queue" := VObject {[ "name" := VString "jobs" ]};
       "period" := VNumber 60 ]} in
  let h : store.heap := {[ 1%positive := o ]} in
  doc.numberOfMessagesDeleted ∈ catalog
  ∧ points_to h (Some 1%positive) (Some o)
  ∧ well_typed SQS (Some o) = true
  ∧ ∃ l h' d,
      sqs_store.numberOfMessagesDeleted (Some 1%positive) h = Ok (l, h')
      ∧ (∀ l0 o0, h !! l0 = Some o0 → h' !! l0 = Some o0)
      ∧ h !! l = None
      ∧ sqs.numberOfMessagesDeleted (Some o) = Ok d
      ∧ h' !! l = Some d.
Proof.
  intros o h.
  assert (Hin : doc.numberOfMessagesDeleted ∈ catalog) by repeat constructor.
  assert (Hpt : points_to h (Some 1%positive) (Some o))
    by (constructor; reflexivity).
  split_and!; [exact Hin | exact Hpt | reflexivity |].
  apply (helpers_leave_store_intact doc.numberOfMessagesDeleted h
           (Some 1%positive) (Some o)); [exact Hin | exact Hpt | reflexivity].
Defined.

(** C6: two calls of the same helper, one after the other, with arguments
    that are equal field for field, return two descriptors that are equal
    field for field, at two locations; when the first call fails so does
    the second. *)
Theorem equal_inputs_equal_descriptors hp (h : store.heap) change1 change2
    (c1 c2 : option obj) :
  hp ∈ catalog → points_to h change1 c1 → points_to h change2 c2 →
  same_input c1 c2 →
  match call_store hp change1 h with
  | Ok (l1, h1) =>
      ∃ l2 h2 d1 d2,
        call_store hp change2 h1 = Ok (l2, h2)
        ∧ l1 ≠ l2
        ∧ h2 !! l1 = Some d1 ∧ h2 !! l2 = Some d2
        ∧ same_fields d1 d2
        ∧ call hp c1 = Ok d1 ∧ call hp c2 = Ok d2
  | TypeError =>
      call_store hp change2 h = TypeError
      ∧ call hp c1 = TypeError ∧ call hp c2 = TypeError
  end.
Proof.
  intros Hin Hpt1 Hpt2 Heq. apply same_input_eq in Heq as <-.
  pose proof (call_store_refines hp h change1 c1 Hin Hpt1) as Href1.
  pose proof (call_store_refines hp h change2 c1 Hin Hpt2) as Href2.
  destruct (call hp c1) as [d|] eqn:Hcall; simpl in Href1, Href2.
  - destruct Href1 as (l1 & h1 & -> & Hsub1 & Hnew1 & Hd1).
    clear Href2.
    pose proof (call_store_refines hp h1 change2 c1 Hin
                  (points_to_weaken _ _ _ _ Hsub1 Hpt2)) as Href.
    rewrite Hcall in Href. destruct Href as (l2 & h2 & -> & Hsub2 & Hnew2 & Hd2).
    exists l2, h2, d, d. split_and!; try done.
    + congruence.
    + by eapply lookup_weaken.
  - by rewrite Href1.
Qed.

Lemma equal_inputs_equal_descriptors_witness :
  let o : obj := {[ "userPool" := VObject {[ "id" := VString "eu-west-1_Pool" ]} ]} in
  let h : store.heap := {[ 1%positive := o; 2%positive := o ]} in
  doc.risk ∈ catalog
  ∧ points_to h (Some 1%positive) (Some o)
  ∧ points_to h (Some 2%positive) (Some o)
  ∧ same_input (Some o) (Some o)
  ∧ match cognito_store.risk (Some 1%positive) h with
    | Ok (l1, h1) =>
        ∃ l2 h2 d1 d2,
          cognito_store.risk (Some 2%positive) h1 = Ok (l2, h2)
          ∧ l1 ≠ l2
          ∧ h2 !! l1 = Some d1 ∧ h2 !! l2 = Some d2
          ∧ same_fields d1 d2
          ∧ cognito.risk (Some o) = Ok d1 ∧ cognito.risk (Some o) = Ok d2
    | TypeError =>
        cognito_store.risk (Some 2%positive) h = TypeError
        ∧ cognito.risk (Some o) = TypeError ∧ cognito.risk (Some o) = TypeError
    end.
Proof.
  intros o h.
  assert (Hin : doc.risk ∈ catalog) by repeat constructor.
  assert (Hpt1 : points_to h (Some 1%positive) (Some o))
    by (constructor; reflexivity).
  assert (Hpt2 : points_to h (Some 2%positive) (Some o))
    by (constructor; reflexivity).
  assert (Heq : same_input (Some o) (Some o)) by (intros k; reflexivity).
  split_and!; [exact Hin | exact Hpt1 | exact Hpt2 | exact Heq |].
  apply (equal_inputs_equal_descriptors doc.risk h (Some 1%positive)
           (Some 2%positive) (Some o) (Some o) Hin Hpt1 Hpt2 Heq).
Defined.

(** * Further properties of the helpers *)

(** ** When a helper throws *)





(** ** Resources that are not objects *)

Lemma dimensions_withDimensions (m : cloudwatch.Metric) (dims : gmap string value) :
  cloudwatch.dimensions (cloudwatch.withDimensions m dims)
  = dims ∪ cloudwatch.dimensions m.
Proof.
  unfold cloudwatch.withDimensions. unfold cloudwatch.dimensions at 1.
  by rewrite lookup_insert_eq.
Qed.

Lemma sqs_metric_primitive n (o : obj) r :
  o !! "queue" = Some r → is_primitive r = true →
  sqs.metric n (Some o)
  = Ok (cloudwatch.withDimensions
          (cloudwatch.new_Metric (sqs.metric_args n o))
          {[ "QueueName" := VUndefined ]}).
Proof.
  intros Hr Hprim. unfold sqs.metric, sqs.metric_dimensions, prop; simpl.
  rewrite Hr. destruct r; try discriminate Hprim; reflexivity.
Qed.

Lemma cognito_metric_primitive n (o : obj) r :
  o !! "userPool" = Some r → is_primitive r = true →
  cognito.metric n (Some o)
  = Ok (cloudwatch.withDimensions
          (cloudwatch.new_Metric (cognito.metric_args n o))
          {[ "UserPoolId" := VUndefined ]}).
Proof.
  intros Hr Hprim. unfold cognito.metric, cognito.metric_dimensions, prop; simpl.
  rewrite Hr. destruct r; try discriminate Hprim; reflexivity.
Qed.

(** A resource property that holds a boolean, a number or a string, such as
    the name of the queue in place of the queue, passes the guard and does
    not throw: the descriptor has the dimension key of the service, with the
    value [undefined]. *)
Theorem primitive_resource_undefined_dimension hp (o : obj) r :
  hp ∈ catalog → o !! svc_resource (service hp) = Some r →
  is_primitive r = true →
  ∃ d, call hp (Some o) = Ok d
       ∧ cloudwatch.dimensions d !! svc_dimension (service hp) = Some VUndefined.
Proof.
  intros Hin. unfold catalog, sqs_catalog, cognito_catalog in Hin.
  simpl in Hin. repeat (apply elem_of_cons in Hin as [-> | Hin]);
    try (by apply elem_of_nil in Hin); simpl; intros Hr Hprim.
  all: eexists; split;
    [ first [ by eapply cognito_metric_primitive
            | eapply sqs_metric_primitive;
              [by apply spread_lookup_source | done] ]
    | rewrite dimensions_withDimensions;
      apply lookup_union_Some_l, lookup_singleton_eq ].
Qed.

Lemma primitive_resource_undefined_dimension_witness :
  let o : obj := {[ "queue" := VString "jobs"; "period" := VNumber 60 ]} in
  doc.numberOfMessagesSent ∈ catalog
  ∧ o !! "queue" = Some (VString "jobs")
  ∧ is_primitive (VString "jobs") = true
  ∧ ∃ d, sqs.numberOfMessagesSent (Some o) = Ok d
         ∧ cloudwatch.dimensions d !! "QueueName" = Some VUndefined.
Proof.
  intros o.
  assert (Hin : doc.numberOfMessagesSent ∈ catalog) by repeat constructor.
  split_and!; [exact Hin | reflexivity | reflexivity |].
  apply (primitive_resource_undefined_dimension doc.numberOfMessagesSent o
           (VString "jobs")); [exact Hin | reflexivity | reflexivity].
Defined.

(** ** The dimension map in general *)

(** For a well-typed argument the dimension map of the descriptor is the
    dimension map of the change object itself when there is no resource
    reference, and that map with the dimension key of the service set to the
    identifying attribute of the resource when there is one. *)
Theorem dimensions_of_descriptor hp (c : option obj) :
  hp ∈ catalog → well_typed (service hp) c = true →
  ∃ d, call hp c = Ok d
       ∧ (resource_of (service hp) c = None →
          cloudwatch.dimensions d = cloudwatch.dimensions (default ∅ c))
       ∧ (∀ q : obj,
            default ∅ c !! svc_resource (service hp) = Some (VObject q) →
            cloudwatch.dimensions d
            = <[svc_dimension (service hp) := prop q (svc_attribute (service hp))]>
                (cloudwatch.dimensions (default ∅ c))).
Proof.
  intros Hin Hty. exists (descriptor hp c).
  split; [by apply call_descriptor|]. rewrite descriptor_dimensions. split.
  - intros Hres. rewrite derived_no_resource by done. apply (left_id_L ∅ (∪)).
  - intros q Hq. rewrite (derived_resource _ _ q) by done.
    symmetry. apply insert_union_singleton_l.
Qed.

Lemma dimensions_of_descriptor_witness :
  let c : option obj :=
    Some {[ "userPool" := VObject {[ "id" := VString "eu-west-1_Pool" ]};
            "dimensions" := VObject {[ "UserPoolId" := VString "other";
                                       "Stage" := VString "prod" ]} ]} in
  doc.overrideBlock ∈ catalog
  ∧ well_typed Cognito c = true
  ∧ ∃ d, cognito.overrideBlock c = Ok d
         ∧ cloudwatch.dimensions d
           = {[ "UserPoolId" := VString "eu-west-1_Pool";
                "Stage" := VString "prod" ]}.
Proof.
  intros c.
  assert (Hin : doc.overrideBlock ∈ catalog) by repeat constructor.
  split_and!; [exact Hin | reflexivity |].
  destruct (dimensions_of_descriptor doc.overrideBlock c Hin eq_refl)
    as (d & Hcall & _ & Hres).
  exists d. split; [exact Hcall|].
  rewrite (Hres {[ "id" := VString "eu-west-1_Pool" ]} eq_refl).
  reflexivity.
Defined.

(** ** The properties of the constructor argument *)

Lemma spread_opt_is_Some (target : obj) (c : option obj) k :
  is_Some (spread_opt target c !! k)
  ↔ is_Some (default ∅ c !! k) ∨ is_Some (target !! k).
Proof.
  destruct c as [o|]; simpl.
  - unfold spread. apply lookup_union_is_Some.
  - rewrite lookup_empty. split; [by right | intros [[v Hv]|]; done].
Qed.

(** The object handed to the constructor of the descriptor has the
    properties of the change object and, besides them, [namespace] and
    [name], and [unit] when an SQS helper built the argument of [metric]:
    the two spreads drop nothing and add nothing else. *)
Theorem constructor_argument_properties :
  (∀ n u (c : option obj) k,
     is_Some (sqs.metric_args n (spread_opt {[ "unit" := VString u ]} c) !! k)
     ↔ k = "namespace" ∨ k = "name" ∨ k = "unit"
       ∨ is_Some (default ∅ c !! k))
  ∧ (∀ n (c : option obj) k,
       is_Some (cognito.metric_args n (default ∅ c) !! k)
       ↔ k = "namespace" ∨ k = "name" ∨ is_Some (default ∅ c !! k)).
Proof.
  assert (Hbase : ∀ (ns nm : value) k,
            is_Some (({[ "namespace" := ns; "name" := nm ]} : obj) !! k)
            ↔ k = "namespace" ∨ k = "name").
  { intros ns nm k.
    rewrite lookup_insert_is_Some, lookup_singleton_is_Some. split.
    - intros [<- | [_ <-]]; auto.
    - intros [-> | ->]; [by left | by right]. }
  split.
  - intros n u c k. unfold sqs.metric_args, spread.
    rewrite lookup_union_is_Some, spread_opt_is_Some, Hbase.
    rewrite lookup_singleton_is_Some. split.
    + intros [[Hc | <-] | [-> | ->]]; auto.
    + intros [-> | [-> | [-> | Hc]]]; auto.
  - intros n c k. unfold cognito.metric_args, spread.
    rewrite lookup_union_is_Some, Hbase. tauto.
Qed.

(** ** The catalogs and the enumerations *)


(** ** Helpers of one service *)

Lemma constructor_args_same_service hp1 hp2 (c : option obj) k :
  service hp1 = service hp2 → k ≠ "name" → k ≠ "unit" →
  constructor_args hp1 c !! k = constructor_args hp2 c !! k.
Proof.
  intros Hsvc Hname Hunit. unfold constructor_args.
  destruct (default ∅ c !! k) as [v|] eqn:E.
  - rewrite !(spread_lookup_source _ _ k v); [done | |];
      by apply spread_opt_lookup_source.
  - rewrite !spread_lookup_target.
    + rewrite Hsvc. destruct (decide (k = "namespace")) as [->|Hns].
      * by rewrite !lookup_insert_eq.
      * by rewrite !lookup_insert_ne, !lookup_singleton_ne.
    + rewrite spread_opt_lookup_target by done. by apply defaults_lookup_other.
    + rewrite spread_opt_lookup_target by done. by apply defaults_lookup_other.
Qed.

(** Two helpers of the same service, called with the same well-typed
    argument, return descriptors that differ at most in [name] and [unit]:
    every other property, the dimension map included, is the same. *)
Theorem same_service_same_descriptor hp1 hp2 (c : option obj) :
  hp1 ∈ catalog → hp2 ∈ catalog → service hp1 = service hp2 →
  well_typed (service hp1) c = true →
  ∃ d1 d2, call hp1 c = Ok d1 ∧ call hp2 c = Ok d2
           ∧ (∀ k, k ≠ "name" → k ≠ "unit" → d1 !! k = d2 !! k)
           ∧ cloudwatch.dimensions d1 = cloudwatch.dimensions d2.
Proof.
  intros Hin1 Hin2 Hsvc Hty. exists (descriptor hp1 c), (descriptor hp2 c).
  split; [by apply call_descriptor|].
  split; [apply call_descriptor; [done | by rewrite <- Hsvc]|].
  split.
  - intros k Hname Hunit. destruct (decide (k = "dimensions")) as [->|Hk].
    + unfold descriptor, cloudwatch.withDimensions.
      rewrite !lookup_insert_eq. unfold cloudwatch.dimensions.
      by rewrite !constructor_args_dimensions, Hsvc.
    + rewrite !descriptor_lookup by done.
      by apply constructor_args_same_service.
  - by rewrite !descriptor_dimensions, Hsvc.
Qed.

Lemma same_service_same_descriptor_witness :
  let c : option obj :=
    Some {[ "queue" := VObject {[ "name" := VString "jobs" ]};
            "statistic" := VString "Sum" ]} in
  doc.approximateAgeOfOldestMessage ∈ catalog
  ∧ doc.sentMessageSize ∈ catalog
  ∧ service doc.approximateAgeOfOldestMessage = service doc.sentMessageSize
  ∧ well_typed SQS c = true
  ∧ ∃ d1 d2, sqs.approximateAgeOfOldestMessage c = Ok d1
             ∧ sqs.sentMessageSize c = Ok d2
             ∧ (∀ k, k ≠ "name" → k ≠ "unit" → d1 !! k = d2 !! k)
             ∧ cloudwatch.dimensions d1 = cloudwatch.dimensions d2.
Proof.
  intros c.
  assert (Hin1 : doc.approximateAgeOfOldestMessage ∈ catalog)
    by repeat constructor.
  assert (Hin2 : doc.sentMessageSize ∈ catalog) by repeat constructor.
  split_and!; [exact Hin1 | exact Hin2 | reflexivity | reflexivity |].
  apply (same_service_same_descriptor doc.approximateAgeOfOldestMessage
           doc.sentMessageSize c); [exact Hin1 | exact Hin2 | reflexivity | reflexivity].
Defined.

(** ** A unit in the change object *)

Lemma spread_shadowed (o : obj) k v :
  is_Some (o !! k) → spread {[ k := v ]} o = o.
Proof.
  intros Hk. unfold spread. apply map_eq. intros i.
  destruct (o !! i) as [w|] eqn:E.
  - by apply lookup_union_Some_l.
  - rewrite lookup_union_r by done. apply lookup_singleton_ne.
    intros ->. rewrite E in Hk. by destruct Hk.
Qed.

(** When the change object has a [unit] property, the default of an SQS
    helper leaves no trace: the helper returns what [metric] returns for the
    change object itself. *)
Theorem unit_in_change_shadows_default hp (o : obj) :
  hp ∈ sqs_catalog → is_Some (o !! "unit") →
  ∃ n, sqs.literal n = doc_name hp
       ∧ call hp (Some o) = sqs.metric n (Some o).
Proof.
  intros Hin Hunit. unfold sqs_catalog in Hin.
  repeat (apply elem_of_cons in Hin as [-> | Hin]);
    try (by apply elem_of_nil in Hin); simpl.
  all: unfold sqs.approximateAgeOfOldestMessage,
         sqs.approximateNumberOfMessagesDelayed,
         sqs.approximateNumberOfMessagesNotVisible,
         sqs.approximateNumberOfMessagesVisible, sqs.numberOfEmptyReceives,
         sqs.numberOfMessagesDeleted, sqs.numberOfMessagesReceived,
         sqs.numberOfMessagesSent, sqs.sentMessageSize.
  all: cbn [spread_opt]; rewrite spread_shadowed by done.
  all: eexists; split; [|reflexivity]; reflexivity.
Qed.

Lemma unit_in_change_shadows_default_witness :
  let o : obj :=
    {[ "unit" := VUndefined; "queue" := VObject {[ "name" := VString "jobs" ]} ]} in
  doc.approximateAgeOfOldestMessage ∈ sqs_catalog
  ∧ is_Some (o !! "unit")
  ∧ ∃ n, sqs.literal n = "ApproximateAgeOfOldestMessage"
         ∧ sqs.approximateAgeOfOldestMessage (Some o) = sqs.metric n (Some o).
Proof.
  intros o.
  assert (Hin : doc.approximateAgeOfOldestMessage ∈ sqs_catalog)
    by repeat constructor.
  assert (Hunit : is_Some (o !! "unit")) by (eexists; reflexivity).
  split_and!; [exact Hin | exact Hunit |].
  apply (unit_in_change_shadows_default doc.approximateAgeOfOldestMessage o
           Hin Hunit).
Defined.

(** ** Calls one after the other *)

(** Two helpers, of the same service or not, called one after the other on
    the same change object of the store both return the descriptor of the
    value-level function; the second call leaves the descriptor of the first
    and every object the store held at the start as they were. *)
Theorem successive_calls_do_not_interfere hp1 hp2 (h : store.heap) change
    (c : option obj) :
  hp1 ∈ catalog → hp2 ∈ catalog → points_to h change c →
  well_typed (service hp1) c = true → well_typed (service hp2) c = true →
  ∃ l1 h1 l2 h2 d1 d2,
    call_store hp1 change h = Ok (l1, h1)
    ∧ call_store hp2 change h1 = Ok (l2, h2)
    ∧ l1 ≠ l2
    ∧ call hp1 c = Ok d1 ∧ h2 !! l1 = Some d1
    ∧ call hp2 c = Ok d2 ∧ h2 !! l2 = Some d2
    ∧ ∀ l0 o0, h !! l0 = Some o0 → h2 !! l0 = Some o0.
Proof.
  intros Hin1 Hin2 Hpt Hty1 Hty2.
  pose proof (call_store_refines hp1 h change c Hin1 Hpt) as Href1.
  rewrite (call_descriptor hp1 c Hin1 Hty1) in Href1.
  destruct Href1 as (l1 & h1 & Hrun1 & Hsub1 & Hnew1 & Hd1).
  pose proof (call_store_refines hp2 h1 change c Hin2
                (points_to_weaken _ _ _ _ Hsub1 Hpt)) as Href2.
  rewrite (call_descriptor hp2 c Hin2 Hty2) in Href2.
  destruct Href2 as (l2 & h2 & Hrun2 & Hsub2 & Hnew2 & Hd2).
  exists l1, h1, l2, h2, (descriptor hp1 c), (descriptor hp2 c).
  split_and!; try done.
  - congruence.
  - by apply call_descriptor.
  - by eapply lookup_weaken.
  - by apply call_descriptor.
  - intros l0 o0 Hl0. eapply lookup_weaken; [|exact Hsub2].
    by eapply lookup_weaken.
Qed.

Lemma successive_calls_do_not_interfere_witness :
  let o : obj :=
    {[ "queue" := VObject {[ "name" := VString "jobs" ]};
       "period" := VNumber 300 ]} in
  let h : store.heap := {[ 7%positive := o ]} in
  doc.numberOfMessagesSent ∈ catalog
  ∧ doc.noRisk ∈ catalog
  ∧ points_to h (Some 7%positive) (Some o)
  ∧ well_typed SQS (Some o) = true
  ∧ well_typed Cognito (Some o) = true
  ∧ ∃ l1 h1 l2 h2 d1 d2,
      sqs_store.numberOfMessagesSent (Some 7%positive) h = Ok (l1, h1)
      ∧ cognito_store.noRisk (Some 7%positive) h1 = Ok (l2, h2)
      ∧ l1 ≠ l2
      ∧ sqs.numberOfMessagesSent (Some o) = Ok d1 ∧ h2 !! l1 = Some d1
      ∧ cognito.noRisk (Some o) = Ok d2 ∧ h2 !! l2 = Some d2
      ∧ ∀ l0 o0, h !! l0 = Some o0 → h2 !! l0 = Some o0.
Proof.
  intros o h.
  assert (Hin1 : doc.numberOfMessagesSent ∈ catalog) by repeat constructor.
  assert (Hin2 : doc.noRisk ∈ catalog) by repeat constructor.
  assert (Hpt : points_to h (Some 7%positive) (Some o))
    by (constructor; reflexivity).
  split_and!; [exact Hin1 | exact Hin2 | exact Hpt | reflexivity | reflexivity |].
  apply (successive_calls_do_not_interfere doc.numberOfMessagesSent doc.noRisk
           h (Some 7%positive) (Some o));
    [exact Hin1 | exact Hin2 | exact Hpt | reflexivity | reflexivity].
Defined.
